(** * The prediction game's round engine (src/src/components/PredictionGame.tsx)

    A shallow embedding of the state that the [PredictionGame] component keeps
    in [useState<GameState>] and of the callbacks that update it.  Every
    [setGameState(prev => ...)] updater becomes a function on [GameState];
    a callback that also raises a toast returns the toast next to the state.

    Conventions.
    - A JavaScript [number] that only ever holds an integer (seconds,
      round numbers, timestamps) is a [Z].
    - The payout multipliers 1.9, 2.8, 9.0 are the rationals written in the
      table; binary64 rounding of these literals is not modelled.
    - A callback reads [gameState] from its closure and then updates [prev];
      intents and timers are applied one at a time, so both are the same
      state here. *)

From Stdlib Require Import String ZArith NArith QArith Qround List Bool Lia.
Import ListNotations.
Open Scope Z_scope.

(** ** Data model (lines 11-54) *)

Inductive GameMode := demo | live.

(** [type RoundDuration = 10 | 15 | 20] *)
Inductive RoundDuration := D10 | D15 | D20.

(** The number a [RoundDuration] is at run time. *)
Definition seconds (d : RoundDuration) : Z :=
  match d with D10 => 10 | D15 => 15 | D20 => 20 end.

(** [type PredictionType = "big" | "small" | "red" | "green" | "blue" | number] *)
Inductive PredictionType :=
| T_big | T_small | T_red | T_green | T_blue
| T_number (n : Z).

Inductive GamePhase := betting | resolving | showing_result.

Inductive Category := size | color | number.

(** ["red" | "green" | "blue"], the type of [RoundResult.color]. *)
Inductive Color := red | green | blue.

Record Prediction := {
  type : PredictionType;
  category : Category;
  multiplier : Q
}.

(** [RoundResult]; its fields carry the prefix [result_] because [GameState]'s
    round has a [duration] too. *)
Record RoundResult := {
  result_number : Z;
  result_color : Color;
  result_timestamp : Z;
  result_duration : RoundDuration
}.

Record BettingActivity := {
  id : string;
  playerName : string;
  betType : string;
  amount : Z;
  timestamp : Z
}.

Record Round := {
  duration : RoundDuration;
  timeRemaining : Z;
  phase : GamePhase
}.

Record Settings := {
  soundEnabled : bool;
  animationsEnabled : bool
}.

Record GameState := {
  currentRound : Round;
  activePredictions : list Prediction;
  lockedPredictions : list Prediction;
  lastResult : option RoundResult;
  history : list RoundResult;
  settings : Settings;
  mode : GameMode;
  selectedDuration : RoundDuration;
  bettingActivity : list BettingActivity
}.

(** The argument of [useState] (lines 82-99). *)
Definition initialState : GameState := {|
  currentRound := {| duration := D10; timeRemaining := 10; phase := betting |};
  activePredictions := [];
  lockedPredictions := [];
  lastResult := None;
  history := [];
  settings := {| soundEnabled := true; animationsEnabled := true |};
  mode := demo;
  selectedDuration := D10;
  bettingActivity := []
|}.

(** ** Strict equality on the values the callbacks compare *)

Definition GamePhase_eqb (a b : GamePhase) : bool :=
  match a, b with
  | betting, betting | resolving, resolving
  | showing_result, showing_result => true
  | _, _ => false
  end.

Definition Category_eqb (a b : Category) : bool :=
  match a, b with
  | size, size | color, color | number, number => true
  | _, _ => false
  end.

(** [===] between two values of [PredictionType]: equal strings, or equal
    numbers; a string never equals a number. *)
Definition PredictionType_eqb (a b : PredictionType) : bool :=
  match a, b with
  | T_big, T_big | T_small, T_small
  | T_red, T_red | T_green, T_green | T_blue, T_blue => true
  | T_number n, T_number m => n =? m
  | _, _ => false
  end.

(** A result's colour, seen as a [PredictionType] (the same string). *)
Definition of_color (c : Color) : PredictionType :=
  match c with red => T_red | green => T_green | blue => T_blue end.

(** ** Prediction catalog (lines 63-70 and 308-313) *)

(** [keyof typeof PREDICTION_MULTIPLIERS] *)
Inductive MultiplierKey := K_big | K_small | K_red | K_green | K_blue | K_number.

Definition PREDICTION_MULTIPLIERS (k : MultiplierKey) : Q :=
  match k with
  | K_big => 1.9
  | K_small => 1.9
  | K_red => 2.8
  | K_green => 2.8
  | K_blue => 2.8
  | K_number => 9.0
  end%Q.

(** Lines 308-311: the category of a bet kind. *)
Definition categoryOf (t : PredictionType) : Category :=
  if PredictionType_eqb t T_big || PredictionType_eqb t T_small then size
  else if PredictionType_eqb t T_red || PredictionType_eqb t T_green
          || PredictionType_eqb t T_blue then color
  else number.

(** [type as keyof typeof PREDICTION_MULTIPLIERS]: the cast leaves a string
    as it is.  Line 313 reaches it only when [typeof type] is not ["number"],
    so the last case is never used. *)
Definition as_key (t : PredictionType) : MultiplierKey :=
  match t with
  | T_big => K_big | T_small => K_small
  | T_red => K_red | T_green => K_green | T_blue => K_blue
  | T_number _ => K_number
  end.

(** Line 313. *)
Definition multiplierOf (t : PredictionType) : Q :=
  match t with
  | T_number _ => PREDICTION_MULTIPLIERS K_number
  | _ => PREDICTION_MULTIPLIERS (as_key t)
  end.

(** The object literal [{ type, category, multiplier }] of line 321. *)
Definition mkPrediction (t : PredictionType) : Prediction :=
  {| type := t; category := categoryOf t; multiplier := multiplierOf t |}.

(** ** Toasts

    What a callback passes to [toast.error] or [toast.success]; the text is
    kept as its parameters. *)
Inductive Toast :=
| BettingIsClosed                       (* error, line 304 *)
| SelectAtLeastOne                      (* error, line 329 *)
| TimeIsUp                              (* error, line 334 *)
| PredictionsPlaced (n : nat)           (* success, line 343 *)
| DurationChanged (d : RoundDuration)   (* success, line 215 *)
| Winner (n : nat) (total : Q)          (* success, line 235 *)
| TryAgain.                             (* error, line 243 *)

Definition is_error (t : Toast) : bool :=
  match t with
  | BettingIsClosed | SelectAtLeastOne | TimeIsUp | TryAgain => true
  | PredictionsPlaced _ | DurationChanged _ | Winner _ _ => false
  end.

(** ** Random outcome generator (lines 142-163) *)

(** One call of [getRandomInt] consumes one draw: the element that
    [crypto.getRandomValues] wrote into the [Uint32Array], or, when
    [window.crypto] is missing, the value of [Math.random()]. *)
Inductive Draw :=
| CryptoWord (w : Z)
| MathRandom (u : Q).


(** Lines 144-151.  [%] is JavaScript's remainder, [Z.rem]; on the fallback
    path the product is taken exactly. *)
Definition getRandomInt (max : Z) (d : Draw) : Z :=
  match d with
  | CryptoWord w => Z.rem w max
  | MathRandom u => Qfloor (u * inject_Z max)
  end.

Definition colors : list Color := [red; green; blue].

(** [colors[i]]: [None] is JavaScript's [undefined]. *)
Definition index {A} (l : list A) (i : Z) : option A :=
  if i <? 0 then None else nth_error l (Z.to_nat i).

(** [now] is the value of [Date.now()]. *)
Definition generateResult (d1 d2 : Draw) (now : Z) (s : GameState)
  : option RoundResult :=
  let number0 := getRandomInt 10 d1 in
  match index colors (getRandomInt 3 d2) with
  | Some color0 =>
      Some {| result_number := number0;
              result_color := color0;
              result_timestamp := now;
              result_duration := duration (currentRound s) |}
  | None => None
  end.

(** ** Win evaluator (lines 166-185) *)

(** The body of the [forEach] callback, up to [isWin]. *)
Definition isWin (result : RoundResult) (prediction : Prediction) : bool :=
  match category prediction with
  | size =>
      let w1 := PredictionType_eqb (type prediction) T_big
                && (result_number result >=? 5) in
      let w2 := PredictionType_eqb (type prediction) T_small
                && (result_number result <? 5) in
      w1 || w2
  | color =>
      PredictionType_eqb (type prediction) (of_color (result_color result))
  | number =>
      PredictionType_eqb (type prediction) (T_number (result_number result))
  end.

(** [predictions.forEach(...)] pushing onto [winners], which starts empty. *)
Definition checkWinnings (result : RoundResult) (predictions : list Prediction)
  : list Prediction :=
  fold_left
    (fun winners prediction =>
       if isWin result prediction then winners ++ [prediction] else winners)
    predictions [].

(** ** Round state machine *)

(** Lines 188-200. *)
Definition startNewRound (prev : GameState) : GameState := {|
  currentRound := {| duration := selectedDuration prev;
                     timeRemaining := seconds (selectedDuration prev);
                     phase := betting |};
  activePredictions := [];
  lockedPredictions := [];
  lastResult := lastResult prev;
  history := history prev;
  settings := settings prev;
  mode := mode prev;
  selectedDuration := selectedDuration prev;
  bettingActivity := []
|}.

(** Lines 203-216. *)
Definition changeDuration (newDuration : RoundDuration) (prev : GameState)
  : GameState * option Toast :=
  ({| currentRound :=
        if GamePhase_eqb (phase (currentRound prev)) betting
        then {| duration := newDuration;
                timeRemaining := seconds newDuration;
                phase := phase (currentRound prev) |}
        else currentRound prev;
      activePredictions := activePredictions prev;
      lockedPredictions := lockedPredictions prev;
      lastResult := lastResult prev;
      history := history prev;
      settings := settings prev;
      mode := mode prev;
      selectedDuration := newDuration;
      bettingActivity := bettingActivity prev |},
   Some (DurationChanged newDuration)).

(** [winners.reduce((sum, w) => sum + w.multiplier, 0)] *)
Definition totalWinnings (winners : list Prediction) : Q :=
  fold_left (fun sum w => (sum + multiplier w)%Q) winners 0%Q.

(** Lines 219-255, from [checkWinnings] on: [result] is what
    [generateResult()] returned on line 220.  The [setTimeout] of line 252
    is the timer that later runs [startNewRound]. *)
Definition endRound (result : RoundResult) (prev : GameState)
  : GameState * option Toast :=
  let winners := checkWinnings result (lockedPredictions prev) in
  ({| currentRound := {| duration := duration (currentRound prev);
                         timeRemaining := timeRemaining (currentRound prev);
                         phase := showing_result |};
      activePredictions := activePredictions prev;
      lockedPredictions := lockedPredictions prev;
      lastResult := Some result;
      history := result :: firstn 9 (history prev);
      settings := settings prev;
      mode := mode prev;
      selectedDuration := selectedDuration prev;
      bettingActivity := bettingActivity prev |},
   if (0 <? length winners)%nat
   then Some (Winner (length winners) (totalWinnings winners))
   else if (0 <? length (lockedPredictions prev))%nat then Some TryAgain
   else None).

(** The updater of the one-second interval (lines 261-284). *)
Definition tick (prev : GameState) : GameState :=
  let newTime := timeRemaining (currentRound prev) - 1 in
  if newTime <=? 0 then
    {| currentRound := {| duration := duration (currentRound prev);
                          timeRemaining := 0;
                          phase := resolving |};
       activePredictions := activePredictions prev;
       lockedPredictions := activePredictions prev;
       lastResult := lastResult prev;
       history := history prev;
       settings := settings prev;
       mode := mode prev;
       selectedDuration := selectedDuration prev;
       bettingActivity := bettingActivity prev |}
  else
    {| currentRound := {| duration := duration (currentRound prev);
                          timeRemaining := newTime;
                          phase := phase (currentRound prev) |};
       activePredictions := activePredictions prev;
       lockedPredictions := lockedPredictions prev;
       lastResult := lastResult prev;
       history := history prev;
       settings := settings prev;
       mode := mode prev;
       selectedDuration := selectedDuration prev;
       bettingActivity := bettingActivity prev |}.

(** Lines 302-324. *)
Definition addPrediction (t : PredictionType) (prev : GameState)
  : GameState * option Toast :=
  if negb (GamePhase_eqb (phase (currentRound prev)) betting)
     || (timeRemaining (currentRound prev) =? 0)
  then (prev, Some BettingIsClosed)
  else
    let category0 := categoryOf t in
    let multiplier0 := multiplierOf t in
    let filtered :=
      filter (fun p => negb (Category_eqb (category p) category0))
             (activePredictions prev) in
    ({| currentRound := currentRound prev;
        activePredictions :=
          filtered ++ [{| type := t; category := category0;
                          multiplier := multiplier0 |}];
        lockedPredictions := lockedPredictions prev;
        lastResult := lastResult prev;
        history := history prev;
        settings := settings prev;
        mode := mode prev;
        selectedDuration := selectedDuration prev;
        bettingActivity := bettingActivity prev |},
     None).

(** Lines 327-349. *)
Definition placePredictions (prev : GameState) : GameState * option Toast :=
  if (length (activePredictions prev) =? 0)%nat
  then (prev, Some SelectAtLeastOne)
  else if timeRemaining (currentRound prev) =? 0
  then (prev, Some TimeIsUp)
  else
    ({| currentRound := currentRound prev;
        activePredictions := activePredictions prev;
        lockedPredictions := activePredictions prev;
        lastResult := lastResult prev;
        history := history prev;
        settings := settings prev;
        mode := mode prev;
        selectedDuration := selectedDuration prev;
        bettingActivity := bettingActivity prev |},
     Some (PredictionsPlaced (length (activePredictions prev)))).

(** Lines 352-357. *)
Definition clearPredictions (prev : GameState) : GameState := {|
  currentRound := currentRound prev;
  activePredictions := [];
  lockedPredictions := lockedPredictions prev;
  lastResult := lastResult prev;
  history := history prev;
  settings := settings prev;
  mode := mode prev;
  selectedDuration := selectedDuration prev;
  bettingActivity := bettingActivity prev
|}.


(** The updater of the activity feed (lines 126-129); [newActivity] is what
    [generateBettingActivity()] returned. *)
Definition addBettingActivity (newActivity : BettingActivity) (prev : GameState)
  : GameState := {|
  currentRound := currentRound prev;
  activePredictions := activePredictions prev;
  lockedPredictions := lockedPredictions prev;
  lastResult := lastResult prev;
  history := history prev;
  settings := settings prev;
  mode := mode prev;
  selectedDuration := selectedDuration prev;
  bettingActivity := newActivity :: firstn 4 (bettingActivity prev)
|}.

(** The two switches (lines 873-878 and 886-891). *)
Definition setSound (checked : bool) (prev : GameState) : GameState := {|
  currentRound := currentRound prev;
  activePredictions := activePredictions prev;
  lockedPredictions := lockedPredictions prev;
  lastResult := lastResult prev;
  history := history prev;
  settings := {| soundEnabled := checked;
                 animationsEnabled := animationsEnabled (settings prev) |};
  mode := mode prev;
  selectedDuration := selectedDuration prev;
  bettingActivity := bettingActivity prev
|}.

Definition setAnimations (checked : bool) (prev : GameState) : GameState := {|
  currentRound := currentRound prev;
  activePredictions := activePredictions prev;
  lockedPredictions := lockedPredictions prev;
  lastResult := lastResult prev;
  history := history prev;
  settings := {| soundEnabled := soundEnabled (settings prev);
                 animationsEnabled := checked |};
  mode := mode prev;
  selectedDuration := selectedDuration prev;
  bettingActivity := bettingActivity prev
|}.

(** ** Events and reachable states

    What can change the state: the three timers of the round, the player's
    four intents, the activity feed and the two switches. *)
Inductive Event :=
| Tick
| EndRound (result : RoundResult)
| StartNewRound
| AddPrediction (t : PredictionType)
| PlacePredictions
| ClearPredictions
| ChangeDuration (d : RoundDuration)
| Activity (a : BettingActivity)
| SetSound (checked : bool)
| SetAnimations (checked : bool).

Definition apply_event (e : Event) (s : GameState) : GameState :=
  match e with
  | Tick => tick s
  | EndRound result => fst (endRound result s)
  | StartNewRound => startNewRound s
  | AddPrediction t => fst (addPrediction t s)
  | PlacePredictions => fst (placePredictions s)
  | ClearPredictions => clearPredictions s
  | ChangeDuration d => fst (changeDuration d s)
  | Activity a => addBettingActivity a s
  | SetSound b => setSound b s
  | SetAnimations b => setAnimations b s
  end.

(** When a timer is running.  The interval of [tick] exists while the phase
    is betting (line 259); the timeout of [endRound] is set on entering
    resolving (line 286); the timeout of [startNewRound] is set by [endRound]
    (line 252), which has just entered showing-result; the activity interval
    needs betting and time left (line 123).  The handlers of the player's
    intents carry their own guards and can be called in any state; every
    round result is allowed for [EndRound]. *)
Definition scheduled (e : Event) (s : GameState) : bool :=
  match e with
  | Tick => GamePhase_eqb (phase (currentRound s)) betting
  | EndRound _ => GamePhase_eqb (phase (currentRound s)) resolving
  | StartNewRound => GamePhase_eqb (phase (currentRound s)) showing_result
  | Activity _ => GamePhase_eqb (phase (currentRound s)) betting
                  && (timeRemaining (currentRound s) >? 0)
  | _ => true
  end.

Inductive step (s : GameState) : GameState -> Prop :=
| step_event e : scheduled e s = true -> step s (apply_event e s).

Inductive reachable : GameState -> Prop :=
| reachable_init : reachable initialState
| reachable_step s s' : reachable s -> step s s' -> reachable s'.

(** Running a list of events, oldest first. *)
Definition run (evs : list Event) (s : GameState) : GameState :=
  fold_left (fun s e => apply_event e s) evs s.

(** Whether every event of the list is scheduled when its turn comes. *)
Fixpoint schedule_ok (evs : list Event) (s : GameState) : bool :=
  match evs with
  | [] => true
  | e :: evs' => scheduled e s && schedule_ok evs' (apply_event e s)
  end.

(** The results of the rounds that a list of events resolves, oldest first. *)
Fixpoint results_of (evs : list Event) : list RoundResult :=
  match evs with
  | [] => []
  | EndRound r :: evs' => r :: results_of evs'
  | _ :: evs' => results_of evs'
  end.

(** ** Properties stated in the specification's words *)

(** A prediction wins against a result (section 4.3). *)
Definition wins (r : RoundResult) (p : Prediction) : Prop :=
  (category p = size /\ type p = T_big /\ result_number r >= 5) \/
  (category p = size /\ type p = T_small /\ result_number r < 5) \/
  (category p = color /\ type p = of_color (result_color r)) \/
  (category p = number /\ type p = T_number (result_number r)).

(** At most one prediction per category (section 3). *)
Definition one_per_category (ps : list Prediction) : Prop :=
  NoDup (map category ps).

(** How many predictions of a list are in a category. *)
Definition count_category (c : Category) (ps : list Prediction) : nat :=
  List.length (filter (fun p => Category_eqb (category p) c) ps).

(** ** States and counts used in the statements *)

(** The state after betting big on the initial state. *)
Definition state_with_big : GameState :=
  fst (addPrediction T_big initialState).

(** A bet on big, then the ten ticks of the first round: resolving, no time
    left. *)
Definition state_resolving : GameState :=
  run (AddPrediction T_big :: repeat Tick 10) initialState.

(** Outside the betting phase no time remains. *)
Definition clock_stopped (s : GameState) : Prop :=
  phase (currentRound s) <> betting -> timeRemaining (currentRound s) = 0.

(** A round result that carries its index in the number and the timestamp. *)
Definition sample_result (i : Z) : RoundResult :=
  {| result_number := Z.rem i 10; result_color := green;
     result_timestamp := i; result_duration := D10 |}.

(** Eleven full rounds of the machine, each of ten ticks, a resolution and a
    new round; round [i] resolves to [sample_result i]. *)
Definition eleven_rounds : list Event :=
  flat_map (fun i => repeat Tick 10 ++ [EndRound (sample_result i); StartNewRound])
           [1; 2; 3; 4; 5; 6; 7; 8; 9; 10; 11].

(** Among the words [0 .. n-1], how many [getRandomInt max] sends to [v] on
    the crypto path.  With [n = 2^32] equally likely words, the probability
    of [v] is [preimages max v (2^32) / 2^32]. *)
Definition preimages (max v : Z) (n : N) : Z :=
  N.peano_rect (fun _ => Z) 0
    (fun w acc =>
       if getRandomInt max (CryptoWord (Z.of_N w)) =? v then acc + 1 else acc)
    n.


(** ** What the render reads from the state *)




(** [gameState.activePredictions.some(p => p.type === t)], which highlights
    the bet button of [t] (lines 723, 735, 759 and 784). *)
Definition isSelected (t : PredictionType) (s : GameState) : bool :=
  existsb (fun p => PredictionType_eqb (type p) t) (activePredictions s).

(** Lines 668-669: whether the result panel shows a locked prediction as
    won. *)
Definition showsWin (result : RoundResult) (pred : Prediction) : bool :=
  let winners := checkWinnings result [pred] in
  (0 <? List.length winners)%nat.

(** [result.number >= 5 ? 'BIG' : 'SMALL'], the size label of a result
    (lines 637 and 907): [true] is BIG. *)
Definition showsBig (result : RoundResult) : bool :=
  result_number result >=? 5.

(** Line 589: whether the result panel is rendered. *)
Definition resultPanelShown (s : GameState) : bool :=
  match lastResult s with
  | Some _ => GamePhase_eqb (phase (currentRound s)) showing_result
  | None => false
  end.



(** A prediction as [addPrediction] builds it: category and multiplier are
    those of its type. *)
Definition well_formed (p : Prediction) : Prop :=
  p = mkPrediction (type p).

(** The three categories. *)
Definition categories : list Category := [size; color; number].

(** The ten number bets of the number pad (line 781). *)
Definition number_bets : list PredictionType :=
  map T_number [0; 1; 2; 3; 4; 5; 6; 7; 8; 9].

(** The three colour bets (line 756). *)
Definition color_bets : list PredictionType := [T_red; T_green; T_blue].

(** The countdown stays within the round, and while betting is open it is
    positive and the round runs at the selected duration. *)
Definition clock_in_bounds (s : GameState) : Prop :=
  0 <= timeRemaining (currentRound s) <= seconds (duration (currentRound s)) /\
  (phase (currentRound s) = betting ->
   1 <= timeRemaining (currentRound s) /\
   duration (currentRound s) = selectedDuration s).

(** Four bets, of which big replaces small, then the ten ticks of the first
    round. *)
Definition state_three_bets : GameState :=
  run (AddPrediction T_small :: AddPrediction T_blue
       :: AddPrediction (T_number 4) :: AddPrediction T_big
       :: repeat Tick 10) initialState.

(** The history holds at most ten results, its head is the last result, and
    a result is there to show in showing-result. *)
Definition history_in_step (s : GameState) : Prop :=
  (List.length (history s) <= 10)%nat /\
  lastResult s = hd_error (history s) /\
  (phase (currentRound s) = showing_result -> lastResult s <> None).

(** An activity of the feed, told apart by its amount. *)
Definition sample_activity (i : Z) : BettingActivity :=
  {| id := "id"; playerName := "LuckyStar"; betType := "Big";
     amount := i; timestamp := i |}.

(** Seven activities in the first round. *)
Definition state_seven_activities : GameState :=
  run (map (fun i => Activity (sample_activity i)) [1; 2; 3; 4; 5; 6; 7])
      initialState.

(** A result with number 7 and colour red. *)
Definition seven_red : RoundResult :=
  {| result_number := 7; result_color := red;
     result_timestamp := 0; result_duration := D10 |}.





(** * Theorems *)

(** ** Helper lemmas *)

Lemma GamePhase_eqb_spec a b : reflect (a = b) (GamePhase_eqb a b).
Proof. destruct a, b; constructor; congruence. Qed.

Lemma Category_eqb_spec a b : reflect (a = b) (Category_eqb a b).
Proof. destruct a, b; constructor; congruence. Qed.

Lemma PredictionType_eqb_spec a b : reflect (a = b) (PredictionType_eqb a b).
Proof.
  destruct a, b; simpl; try (constructor; congruence).
  destruct (Z.eqb_spec n n0); constructor; congruence.
Qed.

Lemma fold_push_filter {A} (f : A -> bool) (l acc : list A) :
  fold_left (fun w x => if f x then w ++ [x] else w) l acc = acc ++ filter f l.
Proof.
  revert acc; induction l as [|x l IH]; intros acc; simpl.
  - now rewrite app_nil_r.
  - rewrite IH. destruct (f x); [|reflexivity].
    now rewrite <- app_assoc.
Qed.

Lemma checkWinnings_filter r ps : checkWinnings r ps = filter (isWin r) ps.
Proof. unfold checkWinnings. now rewrite fold_push_filter. Qed.

Lemma isWin_wins r p : isWin r p = true <-> wins r p.
Proof.
  unfold isWin, wins.
  destruct p as [t c m]; simpl.
  destruct c.
  - rewrite orb_true_iff, !andb_true_iff, Z.geb_le, Z.ltb_lt.
    destruct (PredictionType_eqb_spec t T_big);
      destruct (PredictionType_eqb_spec t T_small);
      intuition (try congruence; try lia).
  - destruct (PredictionType_eqb_spec t (of_color (result_color r)));
      intuition congruence.
  - destruct (PredictionType_eqb_spec t (T_number (result_number r)));
      intuition congruence.
Qed.

(** ** C1 *)

(** C1: starting a new round re-enters betting with the round's duration and
    its countdown both set to the selected duration, and with the active and
    the locked predictions empty; a duration chosen just before is the one
    the new round gets. *)
Theorem startNewRound_fresh_betting_round (s : GameState) :
  phase (currentRound (startNewRound s)) = betting /\
  duration (currentRound (startNewRound s)) = selectedDuration s /\
  timeRemaining (currentRound (startNewRound s)) = seconds (selectedDuration s) /\
  activePredictions (startNewRound s) = [] /\
  lockedPredictions (startNewRound s) = [] /\
  (forall d,
      currentRound (startNewRound (fst (changeDuration d s)))
      = {| duration := d; timeRemaining := seconds d; phase := betting |}).
Proof. repeat split. Qed.

(** ** C2 *)

(** C2: the evaluator returns exactly the predictions that win, in the order
    of the input: a size bet big with number >= 5, a size bet small with
    number < 5, a colour bet of the result's colour, a number bet of the
    result's number.  The winners are among the input, and equal inputs give
    equal winners. *)
Theorem checkWinnings_exactly_the_winners
  (r : RoundResult) (ps : list Prediction) :
  checkWinnings r ps = filter (isWin r) ps /\
  (forall p, isWin r p = true <-> wins r p) /\
  (forall p, In p (checkWinnings r ps) <-> In p ps /\ wins r p) /\
  incl (checkWinnings r ps) ps /\
  (forall r' ps', r' = r -> ps' = ps ->
                  checkWinnings r' ps' = checkWinnings r ps).
Proof.
  split; [apply checkWinnings_filter|].
  split; [intros p; apply isWin_wins|].
  split; [|split].
  - intros p. rewrite checkWinnings_filter, filter_In, isWin_wins. tauto.
  - intros p Hp. rewrite checkWinnings_filter in Hp.
    now apply filter_In in Hp.
  - intros r' ps' -> ->. reflexivity.
Qed.

(** ** C9 *)

(** C9: the catalog maps big and small to category size with multiplier 1.9,
    the three colours to category color with multiplier 2.8, and every number
    to category number with multiplier 9.0; it is a total function, and the
    prediction that [addPrediction] builds carries these two values. *)
Theorem catalog_fixed_table (t : PredictionType) :
  (categoryOf t, multiplierOf t) =
    match t with
    | T_big | T_small => (size, 1.9%Q)
    | T_red | T_green | T_blue => (color, 2.8%Q)
    | T_number _ => (number, 9.0%Q)
    end /\
  mkPrediction t =
    {| type := t; category := categoryOf t; multiplier := multiplierOf t |} /\
  (forall s, phase (currentRound s) = betting ->
             timeRemaining (currentRound s) <> 0 ->
             In (mkPrediction t) (activePredictions (fst (addPrediction t s)))).
Proof.
  split; [destruct t; reflexivity|].
  split; [reflexivity|].
  intros s Hp Ht. unfold addPrediction.
  rewrite Hp. simpl.
  destruct (Z.eqb_spec (timeRemaining (currentRound s)) 0); [contradiction|].
  simpl. apply in_or_app. right. now left.
Qed.

(** ** C3 *)

Section InsertReplace.

Variable c : Category.

Let other (p : Prediction) : bool := negb (Category_eqb (category p) c).

Lemma in_map_filter_other ps k :
  In k (map category (filter other ps)) <-> In k (map category ps) /\ k <> c.
Proof.
  rewrite !in_map_iff. split.
  - intros (p & <- & Hp). apply filter_In in Hp as [Hin Ho].
    split; [now exists p|].
    unfold other in Ho. now destruct (Category_eqb_spec (category p) c).
  - intros [(p & <- & Hin) Hne]. exists p. split; [reflexivity|].
    apply filter_In. split; [assumption|].
    unfold other. now destruct (Category_eqb_spec (category p) c).
Qed.

Lemma NoDup_map_filter_other ps :
  NoDup (map category ps) -> NoDup (map category (filter other ps)).
Proof.
  induction ps as [|p ps IH]; simpl; intros H; [constructor|].
  inversion_clear H as [|? ? Hnin Hnd].
  destruct (other p); simpl; [|now apply IH].
  constructor; [|now apply IH].
  rewrite in_map_filter_other. tauto.
Qed.

Lemma count_category_filter_other ps :
  count_category c (filter other ps) = 0%nat.
Proof.
  unfold count_category.
  induction ps as [|p ps IH]; simpl; [reflexivity|].
  destruct (other p) eqn:E; simpl; [|assumption].
  unfold other in E.
  destruct (Category_eqb (category p) c); [discriminate|assumption].
Qed.

End InsertReplace.

Lemma addPrediction_accepted t s :
  phase (currentRound s) = betting ->
  timeRemaining (currentRound s) <> 0 ->
  activePredictions (fst (addPrediction t s)) =
    filter (fun p => negb (Category_eqb (category p) (categoryOf t)))
           (activePredictions s) ++ [mkPrediction t].
Proof.
  intros Hp Ht. unfold addPrediction. rewrite Hp. simpl.
  now destruct (Z.eqb_spec (timeRemaining (currentRound s)) 0).
Qed.

Lemma one_per_category_insert t ps :
  one_per_category ps ->
  one_per_category
    (filter (fun p => negb (Category_eqb (category p) (categoryOf t))) ps
     ++ [mkPrediction t]).
Proof.
  unfold one_per_category. intros H.
  rewrite map_app. simpl.
  apply NoDup_app.
  - now apply NoDup_map_filter_other.
  - constructor; [intros []|constructor].
  - intros k Hk [<-|[]].
    apply in_map_filter_other in Hk. tauto.
Qed.

(** C3: while betting is open, adding a prediction to a set with at most one
    prediction per category gives a set with at most one per category: the
    predictions of the new one's category are removed, the new prediction is
    appended and is the only one of its category, and the predictions of the
    other categories are kept. *)
Theorem addPrediction_replaces_within_category
  (t : PredictionType) (s : GameState) :
  phase (currentRound s) = betting ->
  timeRemaining (currentRound s) <> 0 ->
  one_per_category (activePredictions s) ->
  one_per_category (activePredictions (fst (addPrediction t s))) /\
  In (mkPrediction t) (activePredictions (fst (addPrediction t s))) /\
  count_category (categoryOf t)
    (activePredictions (fst (addPrediction t s))) = 1%nat /\
  (forall p, In p (activePredictions (fst (addPrediction t s))) ->
             category p = categoryOf t -> p = mkPrediction t) /\
  (forall p, category p <> categoryOf t ->
             (In p (activePredictions (fst (addPrediction t s)))
              <-> In p (activePredictions s))).
Proof.
  intros Hp Ht H1.
  rewrite (addPrediction_accepted t s Hp Ht).
  split; [now apply one_per_category_insert|].
  split; [apply in_or_app; right; now left|].
  split.
  { unfold count_category. rewrite filter_app, length_app.
    fold (count_category (categoryOf t)
            (filter (fun p => negb (Category_eqb (category p) (categoryOf t)))
                    (activePredictions s))).
    rewrite count_category_filter_other. simpl.
    now destruct (Category_eqb_spec (categoryOf t) (categoryOf t)). }
  split.
  - intros p Hin Hc. apply in_app_or in Hin as [Hin|[<-|[]]]; [|reflexivity].
    apply filter_In in Hin as [_ Hn]. rewrite Hc in Hn.
    now destruct (Category_eqb_spec (categoryOf t) (categoryOf t)).
  - intros p Hc. rewrite in_app_iff, filter_In. simpl. split.
    + intros [[Hin _]|[<-|[]]]; [assumption|]. now contradiction Hc.
    + intros Hin. left. split; [assumption|].
      now destruct (Category_eqb_spec (category p) (categoryOf t)).
Qed.

Lemma addPrediction_replaces_witness :
  one_per_category (activePredictions (fst (addPrediction T_small state_with_big)))
  /\ activePredictions (fst (addPrediction T_small state_with_big))
     = [mkPrediction T_small].
Proof.
  split; [|reflexivity].
  refine (proj1 (addPrediction_replaces_within_category
                   T_small state_with_big eq_refl _ _)).
  - discriminate.
  - repeat constructor. intros [].
Defined.

(** Accepted or rejected, [addPrediction] keeps the invariant. *)
Lemma addPrediction_keeps_one_per_category t s :
  one_per_category (activePredictions s) ->
  one_per_category (activePredictions (fst (addPrediction t s))) /\
  lockedPredictions (fst (addPrediction t s)) = lockedPredictions s.
Proof.
  intros H. unfold addPrediction.
  destruct (_ || _); simpl; [now split|].
  split; [|reflexivity]. now apply one_per_category_insert.
Qed.

(** Section 3's invariant holds in every reachable state, for the active and
    for the locked predictions. *)
Lemma reachable_one_per_category s :
  reachable s ->
  one_per_category (activePredictions s) /\
  one_per_category (lockedPredictions s).
Proof.
  induction 1 as [|s s' _ [IHa IHl] [e _]].
  - split; constructor.
  - destruct e; cbn [apply_event]; try (split; assumption).
    + unfold tick. destruct (_ <=? _); simpl; now split.
    + split; constructor.
    + destruct (addPrediction_keeps_one_per_category t s IHa) as [Ha Hl].
      rewrite Hl. now split.
    + unfold placePredictions. destruct (_ =? _)%nat; [now split|].
      destruct (_ =? _); simpl; now split.
    + split; [constructor|assumption].
Qed.

(** ** C4 *)



(** ** The clock outside betting *)

Lemma tick_clamps s :
  phase (currentRound (tick s)) <> phase (currentRound s) ->
  phase (currentRound (tick s)) = resolving /\
  timeRemaining (currentRound (tick s)) = 0.
Proof.
  unfold tick.
  destruct (timeRemaining (currentRound s) - 1 <=? 0); simpl; [tauto|].
  intros H. now contradiction H.
Qed.

Lemma tick_clock_stopped s : clock_stopped s -> clock_stopped (tick s).
Proof.
  unfold clock_stopped, tick. intros H.
  destruct (Z.leb_spec (timeRemaining (currentRound s) - 1) 0); simpl;
    [reflexivity|].
  intros Hp. apply H in Hp. lia.
Qed.

Lemma addPrediction_currentRound t s :
  currentRound (fst (addPrediction t s)) = currentRound s.
Proof. unfold addPrediction. now destruct (_ || _). Qed.

Lemma placePredictions_currentRound s :
  currentRound (fst (placePredictions s)) = currentRound s.
Proof.
  unfold placePredictions.
  destruct (_ =? _)%nat; [reflexivity|].
  now destruct (_ =? _).
Qed.

Lemma changeDuration_currentRound d s :
  currentRound (fst (changeDuration d s)) =
    if GamePhase_eqb (phase (currentRound s)) betting
    then {| duration := d; timeRemaining := seconds d; phase := betting |}
    else currentRound s.
Proof.
  unfold changeDuration; simpl.
  now destruct (GamePhase_eqb_spec (phase (currentRound s)) betting) as [->|].
Qed.

Lemma apply_event_clock_stopped e s :
  scheduled e s = true -> clock_stopped s -> clock_stopped (apply_event e s).
Proof.
  intros Hs H. destruct e; simpl in Hs; cbn [apply_event].
  - now apply tick_clock_stopped.
  - unfold clock_stopped in *; simpl. intros _. apply H.
    now destruct (GamePhase_eqb_spec (phase (currentRound s)) resolving) as [->|].
  - unfold clock_stopped; simpl. intros Hp. now contradiction Hp.
  - unfold clock_stopped. now rewrite addPrediction_currentRound.
  - unfold clock_stopped. now rewrite placePredictions_currentRound.
  - exact H.
  - unfold clock_stopped. rewrite changeDuration_currentRound.
    destruct (GamePhase_eqb_spec (phase (currentRound s)) betting);
      simpl; [intros Hp; now contradiction Hp | exact H].
  - exact H.
  - exact H.
  - exact H.
Qed.

Lemma reachable_clock_stopped s : reachable s -> clock_stopped s.
Proof.
  induction 1 as [|s s' _ IH Hstep].
  - intros Hp. now contradiction Hp.
  - destruct Hstep as [e He]. now apply apply_event_clock_stopped.
Qed.

Lemma reachable_run evs : forall s,
  reachable s -> schedule_ok evs s = true -> reachable (run evs s).
Proof.
  induction evs as [|e evs IH]; simpl; intros s Hr Hok; [assumption|].
  apply andb_true_iff in Hok as [He Hok].
  apply IH; [|assumption].
  apply reachable_step with s; [assumption|now constructor].
Qed.

Lemma seconds_positive d : 0 < seconds d.
Proof. destruct d; simpl; lia. Qed.

(** ** C5 *)

(** The state after betting big and letting the first round run out. *)
Lemma state_resolving_reachable : reachable state_resolving.
Proof. apply reachable_run; [constructor|reflexivity]. Qed.



(** ** C6 *)

(** C6: a duration change to [d] is accepted in every state, with the success
    toast, and records [d] as the selected duration.  In betting it sets the
    round's duration and its countdown to [d]; in the other phases the round
    is unchanged, and in a reachable state its countdown, being 0, is then
    not [d].  Nothing else changes. *)
Theorem changeDuration_accepted_and_phase_gated
  (d : RoundDuration) (s : GameState) :
  snd (changeDuration d s) = Some (DurationChanged d) /\
  is_error (DurationChanged d) = false /\
  selectedDuration (fst (changeDuration d s)) = d /\
  (phase (currentRound s) = betting ->
   currentRound (fst (changeDuration d s)) =
     {| duration := d; timeRemaining := seconds d; phase := betting |}) /\
  (phase (currentRound s) <> betting ->
   currentRound (fst (changeDuration d s)) = currentRound s) /\
  (reachable s -> phase (currentRound s) <> betting ->
   timeRemaining (currentRound (fst (changeDuration d s))) <> seconds d) /\
  activePredictions (fst (changeDuration d s)) = activePredictions s /\
  lockedPredictions (fst (changeDuration d s)) = lockedPredictions s /\
  lastResult (fst (changeDuration d s)) = lastResult s /\
  history (fst (changeDuration d s)) = history s.
Proof.
  do 3 (split; [reflexivity|]).
  rewrite changeDuration_currentRound.
  split; [intros ->; reflexivity|].
  split.
  { intros H. now destruct (GamePhase_eqb_spec (phase (currentRound s)) betting). }
  split; [|repeat split].
  intros Hr Hp.
  destruct (GamePhase_eqb_spec (phase (currentRound s)) betting);
    [contradiction|].
  rewrite (reachable_clock_stopped s Hr Hp).
  pose proof (seconds_positive d). lia.
Qed.

(** Section 8's scenario: from 10 to 20 with 4 seconds left, in betting. *)
Example changeDuration_restarts_the_clock :
  let s := run (repeat Tick 6) initialState in
  timeRemaining (currentRound s) = 4 /\
  currentRound (fst (changeDuration D20 s))
  = {| duration := D20; timeRemaining := 20; phase := betting |}.
Proof. split; reflexivity. Qed.

(** ** C7 *)

Lemma history_apply_event e s :
  history (apply_event e s) =
    match e with
    | EndRound r => r :: firstn 9 (history s)
    | _ => history s
    end.
Proof.
  destruct e; try reflexivity; cbn [apply_event].
  - unfold tick. now destruct (_ <=? _).
  - unfold addPrediction. now destruct (_ || _).
  - unfold placePredictions. destruct (_ =? _)%nat; [reflexivity|].
    now destruct (_ =? _).
Qed.

Lemma lastResult_apply_event e s :
  lastResult (apply_event e s) =
    match e with
    | EndRound r => Some r
    | _ => lastResult s
    end.
Proof.
  destruct e; try reflexivity; cbn [apply_event].
  - unfold tick. now destruct (_ <=? _).
  - unfold addPrediction. now destruct (_ || _).
  - unfold placePredictions. destruct (_ =? _)%nat; [reflexivity|].
    now destruct (_ =? _).
Qed.

Lemma run_snoc evs e s : run (evs ++ [e]) s = apply_event e (run evs s).
Proof. unfold run. now rewrite fold_left_app. Qed.

Lemma results_of_app evs evs' :
  results_of (evs ++ evs') = results_of evs ++ results_of evs'.
Proof.
  induction evs as [|e evs IH]; simpl; [reflexivity|].
  destruct e; simpl; now rewrite ?IH.
Qed.

(** The history after a run: untouched while no round is resolved, then the
    ten newest of the new results followed by the old history. *)
Lemma history_run evs s :
  history (run evs s) =
    match results_of evs with
    | [] => history s
    | _ :: _ => firstn 10 (rev (results_of evs) ++ history s)
    end.
Proof.
  induction evs as [|e evs IH] using rev_ind; [reflexivity|].
  rewrite run_snoc, history_apply_event, results_of_app.
  destruct e; simpl (results_of [_]);
    rewrite ?app_nil_r; try exact IH.
  rewrite IH, rev_app_distr. simpl (rev [_]). cbn [app].
  destruct (results_of evs) as [|r rs] eqn:E; cbn [app].
  - reflexivity.
  - rewrite (firstn_cons 9), firstn_firstn. reflexivity.
Qed.

Lemma lastResult_run evs s :
  lastResult (run evs s) =
    match rev (results_of evs) with
    | [] => lastResult s
    | r :: _ => Some r
    end.
Proof.
  induction evs as [|e evs IH] using rev_ind; [reflexivity|].
  rewrite run_snoc, lastResult_apply_event, results_of_app.
  destruct e; simpl (results_of [_]);
    rewrite ?app_nil_r; try exact IH.
  now rewrite rev_app_distr.
Qed.

(** C7: resolving a round stores the result as [lastResult] and puts it in
    front of the history, of which the nine newest entries are kept, so the
    history never exceeds ten entries.  After any run of events that resolves
    eleven rounds, whatever the history was before, the history is the ten
    newest results, newest first. *)
Theorem history_keeps_the_ten_newest (s : GameState) (evs : list Event) :
  List.length (results_of evs) = 11%nat ->
  history (run evs s) = firstn 10 (rev (results_of evs)) /\
  List.length (history (run evs s)) = 10%nat /\
  lastResult (run evs s) = hd_error (rev (results_of evs)) /\
  (forall r s0,
      lastResult (fst (endRound r s0)) = Some r /\
      history (fst (endRound r s0)) = r :: firstn 9 (history s0) /\
      (List.length (history (fst (endRound r s0))) <= 10)%nat /\
      phase (currentRound (fst (endRound r s0))) = showing_result).
Proof.
  intros Hlen.
  assert (H : history (run evs s) = firstn 10 (rev (results_of evs))).
  { rewrite history_run.
    destruct (results_of evs) as [|r rs] eqn:E; [discriminate|].
    rewrite firstn_app, length_rev, Hlen. simpl (10 - 11)%nat.
    now rewrite firstn_O, app_nil_r. }
  split; [exact H|].
  split; [rewrite H, length_firstn, length_rev, Hlen; reflexivity|].
  split.
  { rewrite lastResult_run.
    destruct (rev (results_of evs)) as [|r rs] eqn:E; [|reflexivity].
    apply (f_equal (@List.length _)) in E. rewrite length_rev, Hlen in E.
    discriminate E. }
  intros r s0. repeat split.
  cbn [endRound fst history]. rewrite length_cons.
  pose proof (firstn_le_length 9 (history s0)). lia.
Qed.

Lemma history_keeps_the_ten_newest_witness :
  schedule_ok eleven_rounds initialState = true /\
  history (run eleven_rounds initialState)
  = map sample_result [11; 10; 9; 8; 7; 6; 5; 4; 3; 2].
Proof.
  split; [reflexivity|].
  exact (proj1 (history_keeps_the_ten_newest initialState eleven_rounds eq_refl)).
Defined.

(** ** C10 *)

Lemma placePredictions_rejected_at_zero s :
  timeRemaining (currentRound s) = 0 ->
  fst (placePredictions s) = s /\
  exists toast, snd (placePredictions s) = Some toast /\ is_error toast = true.
Proof.
  intros H. unfold placePredictions.
  destruct (_ =? _)%nat; simpl.
  - split; [reflexivity|]. now exists SelectAtLeastOne.
  - rewrite H. simpl. split; [reflexivity|]. now exists TimeIsUp.
Qed.

(** C10: in a reachable state whose phase is resolving or showing-result no
    time remains.  The tick that leaves betting sets the countdown to 0; a
    step from such a state either leaves the countdown at 0 or enters betting
    with a positive countdown; and confirming bets there is rejected by the
    zero-time guard (or by the empty-set guard before it) with the state
    unchanged. *)
Theorem no_time_remains_outside_betting (s : GameState) :
  reachable s ->
  phase (currentRound s) = resolving \/
  phase (currentRound s) = showing_result ->
  timeRemaining (currentRound s) = 0 /\
  (forall s0, phase (currentRound s0) = betting ->
              phase (currentRound (tick s0)) <> betting ->
              phase (currentRound (tick s0)) = resolving /\
              timeRemaining (currentRound (tick s0)) = 0) /\
  (forall s', step s s' ->
              timeRemaining (currentRound s') = 0 \/
              (phase (currentRound s') = betting /\
               0 < timeRemaining (currentRound s'))) /\
  fst (placePredictions s) = s /\
  (exists toast,
      snd (placePredictions s) = Some toast /\ is_error toast = true).
Proof.
  intros Hr Hp.
  assert (Hnb : phase (currentRound s) <> betting)
    by (destruct Hp as [E|E]; rewrite E; discriminate).
  pose proof (reachable_clock_stopped s Hr Hnb) as H0.
  split; [exact H0|].
  split.
  { intros s0 Hb Hn. apply tick_clamps. now rewrite Hb. }
  split; [|now apply placePredictions_rejected_at_zero].
  intros s' Hstep.
  assert (Hr' : reachable s') by (now apply reachable_step with s).
  pose proof (reachable_clock_stopped s' Hr') as H'.
  destruct Hstep as [e He].
  destruct (GamePhase_eqb_spec (phase (currentRound (apply_event e s))) betting)
    as [Hb|Hb]; [|left; now apply H'].
  destruct e; simpl in He; cbn [apply_event] in *.
  - destruct (GamePhase_eqb_spec (phase (currentRound s)) betting);
      [contradiction|discriminate].
  - discriminate Hb.
  - right. split; [reflexivity|]. simpl. apply seconds_positive.
  - rewrite addPrediction_currentRound in Hb. contradiction.
  - rewrite placePredictions_currentRound in Hb. contradiction.
  - contradiction.
  - rewrite changeDuration_currentRound in Hb.
    destruct (GamePhase_eqb_spec (phase (currentRound s)) betting);
      contradiction.
  - contradiction.
  - contradiction.
  - contradiction.
Qed.

Lemma no_time_remains_outside_betting_witness :
  phase (currentRound state_resolving) = resolving /\
  timeRemaining (currentRound state_resolving) = 0.
Proof.
  split; [reflexivity|].
  exact (proj1 (no_time_remains_outside_betting state_resolving
                  state_resolving_reachable (or_introl eq_refl))).
Defined.

(** ** C8 *)

(** Below 25, the words 3, 13 and 23 give 3 modulo 10; below 7, the words
    0, 3 and 6 give 0 modulo 3. *)
Example preimages_small :
  preimages 10 3 25 = 3 /\ preimages 10 7 25 = 2 /\ preimages 3 0 7 = 3.
Proof. repeat split. Qed.









(** The largest word and the middle of the unit interval. *)
Example generateResult_sample :
  generateResult (CryptoWord 4294967295) (MathRandom 0.5) 1700000000000
                 initialState
  = Some {| result_number := 5; result_color := green;
            result_timestamp := 1700000000000; result_duration := D10 |}.
Proof. reflexivity. Qed.

(** ** Section 8's evaluator scenarios *)

Example big_and_red_win_on_seven_red :
  let r := {| result_number := 7; result_color := red;
              result_timestamp := 0; result_duration := D10 |} in
  let s := run (AddPrediction T_big :: AddPrediction T_red :: repeat Tick 10)
               initialState in
  lockedPredictions s = [mkPrediction T_big; mkPrediction T_red] /\
  checkWinnings r (lockedPredictions s)
  = [mkPrediction T_big; mkPrediction T_red] /\
  (totalWinnings (checkWinnings r (lockedPredictions s)) == 4.7)%Q.
Proof. repeat split. Qed.

Example small_loses_on_eight :
  let r := {| result_number := 8; result_color := blue;
              result_timestamp := 0; result_duration := D10 |} in
  checkWinnings r [mkPrediction T_small] = [].
Proof. reflexivity. Qed.

(** * Further properties of the round engine *)

(** ** What an event leaves alone *)

Lemma selectedDuration_apply_event e s :
  selectedDuration (apply_event e s) =
    match e with
    | ChangeDuration d => d
    | _ => selectedDuration s
    end.
Proof.
  destruct e; try reflexivity; cbn [apply_event].
  - unfold tick. now destruct (_ <=? _).
  - unfold addPrediction. now destruct (_ || _).
  - unfold placePredictions. destruct (_ =? _)%nat; [reflexivity|].
    now destruct (_ =? _).
Qed.

Lemma bettingActivity_apply_event e s :
  bettingActivity (apply_event e s) =
    match e with
    | StartNewRound => []
    | Activity a => a :: firstn 4 (bettingActivity s)
    | _ => bettingActivity s
    end.
Proof.
  destruct e; try reflexivity; cbn [apply_event].
  - unfold tick. now destruct (_ <=? _).
  - unfold addPrediction. now destruct (_ || _).
  - unfold placePredictions. destruct (_ =? _)%nat; [reflexivity|].
    now destruct (_ =? _).
Qed.

Lemma placePredictions_activePredictions s :
  activePredictions (fst (placePredictions s)) = activePredictions s.
Proof.
  unfold placePredictions. destruct (_ =? _)%nat; [reflexivity|].
  now destruct (_ =? _).
Qed.


(** ** Predictions in reachable states *)

Lemma well_formed_mkPrediction t : well_formed (mkPrediction t).
Proof. reflexivity. Qed.

Lemma reachable_well_formed s :
  reachable s ->
  Forall well_formed (activePredictions s) /\
  Forall well_formed (lockedPredictions s).
Proof.
  induction 1 as [|s s' _ [IHa IHl] [e _]].
  - split; constructor.
  - destruct e; cbn [apply_event]; try (split; assumption).
    + unfold tick. destruct (_ <=? _); simpl; now split.
    + split; constructor.
    + unfold addPrediction. destruct (_ || _); simpl; [now split|].
      split; [|assumption].
      apply Forall_app. split.
      * apply Forall_forall. intros p Hp. apply filter_In in Hp as [Hp _].
        revert p Hp. now apply Forall_forall.
      * constructor; [apply well_formed_mkPrediction|constructor].
    + unfold placePredictions. destruct (_ =? _)%nat; [now split|].
      destruct (_ =? _); simpl; now split.
    + split; [constructor|assumption].
Qed.

Lemma one_per_category_length ps :
  one_per_category ps -> (List.length ps <= 3)%nat.
Proof.
  unfold one_per_category. intros H.
  rewrite <- (length_map category).
  change 3%nat with (List.length categories).
  apply NoDup_incl_length; [assumption|].
  intros c _. destruct c; simpl; tauto.
Qed.

Lemma filter_one_per_category (f : Prediction -> bool) ps :
  one_per_category ps -> one_per_category (filter f ps).
Proof.
  unfold one_per_category.
  induction ps as [|p ps IH]; simpl; intros H; [constructor|].
  inversion_clear H as [|? ? Hnin Hnd].
  destruct (f p); simpl; [|now apply IH].
  constructor; [|now apply IH].
  intros Hin. apply Hnin.
  apply in_map_iff in Hin as (q & Hq & Hin).
  apply in_map_iff. exists q. split; [assumption|].
  now apply filter_In in Hin.
Qed.

(** X1: in every reachable state the active and the locked predictions hold
    at most one prediction per category, hence at most three predictions
    each, and every prediction carries the category and the multiplier that
    the catalog gives its type. *)
Theorem reachable_predictions_are_catalog_entries (s : GameState) :
  reachable s ->
  one_per_category (activePredictions s) /\
  one_per_category (lockedPredictions s) /\
  (List.length (activePredictions s) <= 3)%nat /\
  (List.length (lockedPredictions s) <= 3)%nat /\
  (forall p, In p (activePredictions s) \/ In p (lockedPredictions s) ->
             category p = categoryOf (type p) /\
             multiplier p = multiplierOf (type p)).
Proof.
  intros Hr.
  destruct (reachable_one_per_category s Hr) as [Ha Hl].
  destruct (reachable_well_formed s Hr) as [Wa Wl].
  repeat split; try assumption; try (now apply one_per_category_length).
  - destruct H as [H|H];
      [apply (proj1 (Forall_forall _ _) Wa) in H
      |apply (proj1 (Forall_forall _ _) Wl) in H];
      now rewrite H.
  - destruct H as [H|H];
      [apply (proj1 (Forall_forall _ _) Wa) in H
      |apply (proj1 (Forall_forall _ _) Wl) in H];
      now rewrite H.
Qed.

Lemma state_three_bets_reachable : reachable state_three_bets.
Proof. apply reachable_run; [constructor|reflexivity]. Qed.

Lemma reachable_predictions_witness :
  one_per_category (lockedPredictions state_three_bets) /\
  (List.length (lockedPredictions state_three_bets) <= 3)%nat.
Proof.
  pose proof (reachable_predictions_are_catalog_entries
                state_three_bets state_three_bets_reachable)
    as (_ & Hl & _ & Hn & _).
  split; assumption.
Defined.

(** ** The clock in reachable states *)

Lemma apply_event_clock_in_bounds e s :
  scheduled e s = true -> clock_in_bounds s -> clock_in_bounds (apply_event e s).
Proof.
  unfold clock_in_bounds. intros Hs [Hb Hbet].
  destruct e; simpl in Hs; cbn [apply_event];
    rewrite ?addPrediction_currentRound, ?placePredictions_currentRound;
    try (pose proof (selectedDuration_apply_event (AddPrediction t) s) as E;
         cbn [apply_event] in E; rewrite E);
    try (pose proof (selectedDuration_apply_event PlacePredictions s) as E;
         cbn [apply_event] in E; rewrite E);
    try (split; assumption).
  - destruct (GamePhase_eqb_spec (phase (currentRound s)) betting) as [Hp|];
      [|discriminate].
    destruct (Hbet Hp) as [H1 Hd].
    unfold tick.
    destruct (Z.leb_spec (timeRemaining (currentRound s) - 1) 0); simpl.
    + split; [pose proof (seconds_positive (duration (currentRound s))); lia|].
      discriminate.
    + split; [lia|]. intros _. split; [lia|assumption].
  - simpl. split; [assumption|discriminate].
  - simpl. pose proof (seconds_positive (selectedDuration s)).
    split; [lia|]. intros _. split; [lia|reflexivity].
  - rewrite changeDuration_currentRound. simpl.
    destruct (GamePhase_eqb_spec (phase (currentRound s)) betting) as [Hp|Hp];
      simpl.
    + pose proof (seconds_positive d).
      split; [lia|]. intros _. split; [lia|reflexivity].
    + split; [assumption|]. intros Hp'. contradiction.
Qed.

Lemma reachable_clock_in_bounds s : reachable s -> clock_in_bounds s.
Proof.
  induction 1 as [|s s' _ IH [e He]].
  - unfold clock_in_bounds; simpl. split; [lia|]. intros _. split; [lia|reflexivity].
  - now apply apply_event_clock_in_bounds.
Qed.

(** X2: in every reachable state the countdown lies between 0 and the
    round's duration; while the phase is betting it is at least 1 and the
    round's duration is the selected duration. *)
Theorem reachable_countdown_within_round (s : GameState) :
  reachable s ->
  0 <= timeRemaining (currentRound s) <= seconds (duration (currentRound s)) /\
  (phase (currentRound s) = betting ->
   1 <= timeRemaining (currentRound s) /\
   duration (currentRound s) = selectedDuration s).
Proof. exact (reachable_clock_in_bounds s). Qed.

Lemma reachable_countdown_witness :
  0 <= timeRemaining (currentRound state_resolving)
  <= seconds (duration (currentRound state_resolving)).
Proof.
  exact (proj1 (reachable_countdown_within_round
                  state_resolving state_resolving_reachable)).
Defined.

(** ** When the handlers accept *)






(** ** The countdown *)

Lemma schedule_ok_app evs evs' s :
  schedule_ok (evs ++ evs') s =
    schedule_ok evs s && schedule_ok evs' (run evs s).
Proof.
  revert s. induction evs as [|e evs IH]; intros s; simpl; [reflexivity|].
  now rewrite IH, andb_assoc.
Qed.

Lemma run_app evs evs' s : run (evs ++ evs') s = run evs' (run evs s).
Proof. unfold run. apply fold_left_app. Qed.

Lemma run_ticks k s :
  phase (currentRound s) = betting ->
  Z.of_nat k < timeRemaining (currentRound s) ->
  run (repeat Tick k) s =
    {| currentRound :=
         {| duration := duration (currentRound s);
            timeRemaining := timeRemaining (currentRound s) - Z.of_nat k;
            phase := betting |};
       activePredictions := activePredictions s;
       lockedPredictions := lockedPredictions s;
       lastResult := lastResult s;
       history := history s;
       settings := settings s;
       mode := mode s;
       selectedDuration := selectedDuration s;
       bettingActivity := bettingActivity s |}.
Proof.
  intros Hp. induction k as [|k IH]; intros Hk.
  - destruct s as [[d t p] a l lr h st m sd ba]. simpl in *. subst p.
    now rewrite Z.sub_0_r.
  - cbn [repeat]. rewrite repeat_cons, run_snoc, IH by lia.
    cbn [apply_event]. unfold tick. cbn [currentRound timeRemaining].
    destruct (Z.leb_spec (timeRemaining (currentRound s) - Z.of_nat k - 1) 0);
      [lia|].
    simpl. do 2 f_equal. lia.
Qed.

Lemma schedule_ok_ticks k s :
  phase (currentRound s) = betting ->
  Z.of_nat k <= timeRemaining (currentRound s) ->
  schedule_ok (repeat Tick k) s = true.
Proof.
  intros Hp. induction k as [|k IH]; intros Hk; [reflexivity|].
  cbn [repeat]. rewrite repeat_cons, schedule_ok_app, IH by lia.
  rewrite run_ticks by (assumption || lia). reflexivity.
Qed.

Lemma countdown_run_helper n s :
  phase (currentRound s) = betting ->
  timeRemaining (currentRound s) = Z.of_nat n ->
  (0 < n)%nat ->
  schedule_ok (repeat Tick n) s = true /\
  run (repeat Tick n) s =
    {| currentRound := {| duration := duration (currentRound s);
                          timeRemaining := 0;
                          phase := resolving |};
       activePredictions := activePredictions s;
       lockedPredictions := activePredictions s;
       lastResult := lastResult s;
       history := history s;
       settings := settings s;
       mode := mode s;
       selectedDuration := selectedDuration s;
       bettingActivity := bettingActivity s |}.
Proof.
  intros Hp Ht Hn. split.
  - apply schedule_ok_ticks; [assumption|lia].
  - destruct n as [|m]; [lia|].
    cbn [repeat]. rewrite repeat_cons, run_snoc, run_ticks by (assumption || lia).
    cbn [apply_event]. unfold tick. cbn [currentRound timeRemaining].
    destruct (Z.leb_spec (timeRemaining (currentRound s) - Z.of_nat m - 1) 0);
      [reflexivity|lia].
Qed.

(** X5: from a state in betting with [n >= 1] seconds left, fewer than [n]
    ticks stay in betting with the countdown lowered by their number and the
    predictions untouched; the [n]-th tick enters resolving with the
    countdown at 0 and the locked predictions replaced by the active ones,
    whether or not they had been placed.  The interval is scheduled all
    along. *)
Theorem countdown_locks_the_active_predictions (n : nat) (s : GameState) :
  phase (currentRound s) = betting ->
  timeRemaining (currentRound s) = Z.of_nat n ->
  (0 < n)%nat ->
  (forall k, (k < n)%nat ->
     phase (currentRound (run (repeat Tick k) s)) = betting /\
     timeRemaining (currentRound (run (repeat Tick k) s))
     = Z.of_nat n - Z.of_nat k /\
     activePredictions (run (repeat Tick k) s) = activePredictions s /\
     lockedPredictions (run (repeat Tick k) s) = lockedPredictions s) /\
  schedule_ok (repeat Tick n) s = true /\
  run (repeat Tick n) s =
    {| currentRound := {| duration := duration (currentRound s);
                          timeRemaining := 0;
                          phase := resolving |};
       activePredictions := activePredictions s;
       lockedPredictions := activePredictions s;
       lastResult := lastResult s;
       history := history s;
       settings := settings s;
       mode := mode s;
       selectedDuration := selectedDuration s;
       bettingActivity := bettingActivity s |}.
Proof.
  intros Hp Ht Hn. split; [|now apply countdown_run_helper].
  intros k Hk. rewrite run_ticks by (assumption || lia).
  rewrite Ht. repeat split.
Qed.

Lemma countdown_locks_witness :
  lockedPredictions (run (repeat Tick 10) state_with_big)
  = [mkPrediction T_big] /\
  phase (currentRound (run (repeat Tick 10) state_with_big)) = resolving.
Proof.
  pose proof (countdown_locks_the_active_predictions 10 state_with_big
                eq_refl eq_refl ltac:(repeat constructor)) as (_ & _ & H).
  rewrite H. split; reflexivity.
Defined.

(** X6: one full round.  From a state in betting with [n >= 1] seconds left,
    [n] ticks, the resolution to [r] and the start of the next round are
    scheduled one after the other, and lead to betting at the selected
    duration with the full countdown, no active and no locked prediction, an
    empty activity feed, [r] as last result and [r] in front of the nine
    newest entries of the old history. *)
Theorem one_round_returns_to_betting
  (n : nat) (r : RoundResult) (s : GameState) :
  phase (currentRound s) = betting ->
  timeRemaining (currentRound s) = Z.of_nat n ->
  (0 < n)%nat ->
  schedule_ok (repeat Tick n ++ [EndRound r; StartNewRound]) s = true /\
  run (repeat Tick n ++ [EndRound r; StartNewRound]) s =
    {| currentRound := {| duration := selectedDuration s;
                          timeRemaining := seconds (selectedDuration s);
                          phase := betting |};
       activePredictions := [];
       lockedPredictions := [];
       lastResult := Some r;
       history := r :: firstn 9 (history s);
       settings := settings s;
       mode := mode s;
       selectedDuration := selectedDuration s;
       bettingActivity := [] |}.
Proof.
  intros Hp Ht Hn.
  destruct (countdown_run_helper n s Hp Ht Hn) as [Hok Hrun].
  rewrite schedule_ok_app, run_app, Hok, Hrun. split; reflexivity.
Qed.

Lemma one_round_witness :
  phase (currentRound
           (run (repeat Tick 10 ++ [EndRound (sample_result 1); StartNewRound])
                state_with_big)) = betting /\
  history (run (repeat Tick 10 ++ [EndRound (sample_result 1); StartNewRound])
               state_with_big) = [sample_result 1].
Proof.
  pose proof (one_round_returns_to_betting 10 (sample_result 1) state_with_big
                eq_refl eq_refl ltac:(repeat constructor)) as [_ H].
  rewrite H. split; reflexivity.
Defined.

(** ** Locked predictions *)




(** ** History and last result *)

Lemma apply_event_history_in_step e s :
  scheduled e s = true -> history_in_step s -> history_in_step (apply_event e s).
Proof.
  unfold history_in_step. intros Hs (Hlen & Hhd & Hshow).
  rewrite history_apply_event, lastResult_apply_event.
  destruct e; simpl in Hs; cbn [apply_event];
    rewrite ?addPrediction_currentRound, ?placePredictions_currentRound;
    try (repeat split; assumption).
  - repeat split; try assumption.
    destruct (GamePhase_eqb_spec (phase (currentRound s)) betting) as [Hp|];
      [|discriminate].
    unfold tick. destruct (_ <=? _); simpl; [discriminate|].
    rewrite Hp. discriminate.
  - repeat split; [|discriminate].
    rewrite length_cons. pose proof (firstn_le_length 9 (history s)). lia.
  - repeat split; try assumption. simpl. discriminate.
  - repeat split; try assumption.
    rewrite changeDuration_currentRound.
    destruct (GamePhase_eqb_spec (phase (currentRound s)) betting);
      simpl; [discriminate|assumption].
Qed.

Lemma reachable_history_in_step s : reachable s -> history_in_step s.
Proof.
  induction 1 as [|s s' _ IH [e He]].
  - repeat split; simpl; [lia|discriminate].
  - now apply apply_event_history_in_step.
Qed.

(** X8: in every reachable state the history holds at most ten results and
    the last result is its first entry (none exactly when the history is
    empty); in showing-result a last result exists, so the result panel is
    rendered throughout that phase. *)
Theorem reachable_history_bounded_and_headed_by_last_result (s : GameState) :
  reachable s ->
  (List.length (history s) <= 10)%nat /\
  lastResult s = hd_error (history s) /\
  (lastResult s = None <-> history s = []) /\
  (phase (currentRound s) = showing_result -> resultPanelShown s = true).
Proof.
  intros Hr. destruct (reachable_history_in_step s Hr) as (Hlen & Hhd & Hshow).
  repeat split; try assumption.
  - rewrite Hhd. now destruct (history s).
  - intros H. now rewrite Hhd, H.
  - intros Hp. unfold resultPanelShown.
    destruct (lastResult s); [now rewrite Hp|].
    now destruct (Hshow Hp).
Qed.

Lemma reachable_history_witness :
  (List.length (history (run eleven_rounds initialState)) <= 10)%nat.
Proof.
  refine (proj1 (reachable_history_bounded_and_headed_by_last_result
                   (run eleven_rounds initialState) _)).
  apply reachable_run; [constructor|reflexivity].
Defined.

(** ** Activity feed *)

(** X9: in every reachable state the activity feed holds at most five
    entries; a new activity goes in front of the four newest, and the feed
    is empty when a new round starts. *)
Theorem reachable_activity_feed_bounded (s : GameState) :
  reachable s ->
  (List.length (bettingActivity s) <= 5)%nat /\
  (forall a, bettingActivity (addBettingActivity a s)
             = a :: firstn 4 (bettingActivity s)) /\
  bettingActivity (startNewRound s) = [].
Proof.
  intros Hr. split; [|split; reflexivity].
  induction Hr as [|s s' _ IH [e _]]; [simpl; lia|].
  rewrite bettingActivity_apply_event.
  destruct e; try assumption; [simpl; lia|].
  rewrite length_cons. pose proof (firstn_le_length 4 (bettingActivity s)). lia.
Qed.

Lemma reachable_activity_feed_witness :
  (List.length (bettingActivity state_seven_activities) <= 5)%nat /\
  map amount (bettingActivity state_seven_activities) = [7; 6; 5; 4; 3].
Proof.
  split; [|reflexivity].
  refine (proj1 (reachable_activity_feed_bounded state_seven_activities _)).
  apply reachable_run; [constructor|reflexivity].
Defined.

(** ** The evaluator on lists and on single predictions *)

Lemma showsWin_isWin r p : showsWin r p = isWin r p.
Proof.
  unfold showsWin. rewrite checkWinnings_filter. simpl.
  now destruct (isWin r p).
Qed.

Lemma filter_showsWin r ps : filter (showsWin r) ps = filter (isWin r) ps.
Proof. apply filter_ext. intros p. apply showsWin_isWin. Qed.

(** X10: the evaluator works prediction by prediction.  The winners of two
    lists put together are the winners of the first followed by those of the
    second; the winners of a list are the predictions that the result panel
    shows as won; and the toast of [endRound] agrees with the panel: it
    announces a win with the number of the locked predictions shown as won
    when there is one, asks to try again when predictions were locked and
    none is shown as won, and is absent when nothing was locked. *)
Theorem checkWinnings_agrees_with_result_panel
  (r : RoundResult) (ps qs : list Prediction) (s : GameState) :
  checkWinnings r (ps ++ qs) = checkWinnings r ps ++ checkWinnings r qs /\
  checkWinnings r ps = filter (showsWin r) ps /\
  match snd (endRound r s) with
  | Some (Winner n total) =>
      n = List.length (filter (showsWin r) (lockedPredictions s)) /\
      (0 < n)%nat /\
      total = totalWinnings (filter (showsWin r) (lockedPredictions s))
  | Some TryAgain =>
      lockedPredictions s <> [] /\
      forall p, In p (lockedPredictions s) -> showsWin r p = false
  | None => lockedPredictions s = []
  | Some _ => False
  end.
Proof.
  split; [now rewrite !checkWinnings_filter, filter_app|].
  split; [now rewrite checkWinnings_filter, filter_showsWin|].
  unfold endRound. cbn [snd].
  rewrite checkWinnings_filter, <- filter_showsWin.
  destruct (filter (showsWin r) (lockedPredictions s)) as [|w ws] eqn:E.
  - simpl. destruct (lockedPredictions s) as [|p ps'] eqn:El; simpl;
      [reflexivity|].
    split; [discriminate|].
    intros q Hq. destruct (showsWin r q) eqn:Hw; [|reflexivity].
    assert (Hin : In q (filter (showsWin r) (p :: ps')))
      by (apply filter_In; now split).
    rewrite E in Hin. destruct Hin.
  - simpl. repeat split. lia.
Qed.

(** ** Which bets win *)

(** X11: for every result exactly one of the two size bets wins, big when
    the size label of the result is BIG and small otherwise; exactly one of
    the three colour bets wins, the one of the result's colour; and when the
    number is between 0 and 9 exactly one of the ten number bets wins, the
    one of the result's number. *)
Theorem exactly_one_bet_of_each_category_wins (r : RoundResult) :
  0 <= result_number r <= 9 ->
  isWin r (mkPrediction T_big) = showsBig r /\
  isWin r (mkPrediction T_small) = negb (showsBig r) /\
  filter (fun t => isWin r (mkPrediction t)) color_bets
  = [of_color (result_color r)] /\
  filter (fun t => isWin r (mkPrediction t)) number_bets
  = [T_number (result_number r)].
Proof.
  intros Hn. unfold showsBig, isWin. simpl.
  split; [apply orb_false_r|].
  split.
  { rewrite Z.geb_leb, Z.ltb_antisym. reflexivity. }
  split; [now destruct (result_color r)|].
  assert (E : exists k, In k [0; 1; 2; 3; 4; 5; 6; 7; 8; 9] /\
                        result_number r = k).
  { exists (result_number r). split; [simpl; lia|reflexivity]. }
  destruct E as (k & Hk & ->).
  simpl in Hk.
  repeat (destruct Hk as [<-|Hk]; [reflexivity|]). destruct Hk.
Qed.

Lemma exactly_one_bet_witness :
  filter (fun t => isWin seven_red (mkPrediction t)) number_bets = [T_number 7].
Proof.
  refine (proj2 (proj2 (proj2
    (exactly_one_bet_of_each_category_wins seven_red _)))).
  simpl. lia.
Defined.

(** ** The payout of a round *)

Lemma well_formed_inv t c m :
  well_formed {| type := t; category := c; multiplier := m |} ->
  c = categoryOf t /\ m = multiplierOf t.
Proof.
  unfold well_formed, mkPrediction. simpl. intros H.
  injection H as Hc Hm. now split.
Qed.

Ltac absurd_NoDup :=
  repeat match goal with
         | H : NoDup (_ :: _) |- _ => inversion_clear H
         end;
  simpl in *; intuition congruence.

Lemma totalWinnings_bounds ps :
  one_per_category ps -> Forall well_formed ps -> ps <> [] ->
  (1.9 <= totalWinnings ps)%Q /\ (totalWinnings ps <= 13.7)%Q.
Proof.
  intros Hn Hw Hne. pose proof (one_per_category_length ps Hn) as Hl.
  unfold one_per_category in Hn.
  destruct ps as [|[t1 c1 m1] [|[t2 c2 m2] [|[t3 c3 m3] [|p4 ps]]]];
    [| | | |simpl in Hl; lia];
    repeat match goal with
           | H : Forall _ (_ :: _) |- _ => inversion_clear H
           | H : well_formed _ |- _ => apply well_formed_inv in H as [-> ->]
           end;
    clear Hl; simpl in Hn.
  - now contradiction Hne.
  - destruct t1; vm_compute; split; discriminate.
  - destruct t1, t2; try (exfalso; absurd_NoDup);
      vm_compute; split; discriminate.
  - destruct t1, t2, t3; try (exfalso; absurd_NoDup);
      vm_compute; split; discriminate.
Qed.

(** X12: in a reachable state, when [endRound] announces a win, the number
    of winning predictions is between 1 and 3 and the announced total of
    their multipliers is between 1.9 and 13.7 (the sum taken exactly). *)
Theorem announced_win_is_bounded
  (r : RoundResult) (s : GameState) (n : nat) (total : Q) :
  reachable s ->
  snd (endRound r s) = Some (Winner n total) ->
  (1 <= n <= 3)%nat /\ (1.9 <= total)%Q /\ (total <= 13.7)%Q.
Proof.
  intros Hr Ht.
  destruct (reachable_one_per_category s Hr) as [_ Hl].
  destruct (reachable_well_formed s Hr) as [_ Wl].
  unfold endRound in Ht. cbn [snd] in Ht.
  rewrite checkWinnings_filter in Ht.
  set (ws := filter (isWin r) (lockedPredictions s)) in *.
  assert (Hn : one_per_category ws) by now apply filter_one_per_category.
  assert (Hw : Forall well_formed ws).
  { apply Forall_forall. intros p Hp. apply filter_In in Hp as [Hp _].
    revert p Hp. now apply Forall_forall. }
  destruct ws as [|w ws'] eqn:E.
  - simpl in Ht. destruct (0 <? _)%nat; discriminate Ht.
  - cbn [List.length Nat.ltb Nat.leb] in Ht. injection Ht as <- <-.
    pose proof (one_per_category_length _ Hn) as Hlen.
    destruct (totalWinnings_bounds (w :: ws') Hn Hw ltac:(discriminate))
      as [Hlo Hhi].
    repeat split; try assumption. simpl. lia.
Qed.

(** Big and red are locked and 7 red comes out. *)
Lemma announced_win_witness :
  snd (endRound seven_red
         (run (AddPrediction T_big :: AddPrediction T_red :: repeat Tick 10)
              initialState))
  = Some (Winner 2 (470 # 100)) /\
  (1 <= 2 <= 3)%nat.
Proof.
  split; [reflexivity|].
  refine (proj1 (announced_win_is_bounded seven_red
                   (run (AddPrediction T_big :: AddPrediction T_red
                         :: repeat Tick 10) initialState)
                   2 (470 # 100) _ eq_refl)).
  apply reachable_run; [constructor|reflexivity].
Defined.

(** ** Bets of one category *)

Lemma filter_category_twice c (ps : list Prediction) (p : Prediction) :
  category p = c ->
  filter (fun q => negb (Category_eqb (category q) c))
         (filter (fun q => negb (Category_eqb (category q) c)) ps ++ [p])
  = filter (fun q => negb (Category_eqb (category q) c)) ps.
Proof.
  intros Hp. rewrite filter_app. simpl. rewrite Hp.
  destruct (Category_eqb_spec c c) as [_|N]; [|now contradiction N].
  simpl. rewrite app_nil_r.
  induction ps as [|q ps IH]; simpl; [reflexivity|].
  destruct (negb (Category_eqb (category q) c)) eqn:E; simpl;
    [rewrite E; now f_equal|assumption].
Qed.

(** X13: within a category the last bet wins.  Betting on [t1] and then on
    [t2] of the same category leaves the state that betting on [t2] alone
    leaves, in every state; in particular betting twice on the same kind is
    betting once. *)
Theorem addPrediction_last_bet_of_a_category_wins
  (t1 t2 : PredictionType) (s : GameState) :
  categoryOf t1 = categoryOf t2 ->
  fst (addPrediction t2 (fst (addPrediction t1 s))) = fst (addPrediction t2 s).
Proof.
  intros Hc. unfold addPrediction.
  destruct (negb (GamePhase_eqb (phase (currentRound s)) betting)
            || (timeRemaining (currentRound s) =? 0)) eqn:E; cbn [fst].
  - now rewrite E.
  - cbn [currentRound]. rewrite E. cbn [fst activePredictions].
    rewrite <- Hc.
    now rewrite (filter_category_twice (categoryOf t1)).
Qed.

Lemma addPrediction_last_bet_witness :
  activePredictions (fst (addPrediction T_small state_with_big))
  = activePredictions (fst (addPrediction T_small initialState)).
Proof.
  exact (f_equal activePredictions
           (addPrediction_last_bet_of_a_category_wins
              T_big T_small initialState eq_refl)).
Defined.

Lemma NoDup_map_injective {A B} (f : A -> B) (l : list A) x y :
  NoDup (map f l) -> In x l -> In y l -> f x = f y -> x = y.
Proof.
  induction l as [|a l IH]; simpl; intros Hn Hx Hy E; [destruct Hx|].
  inversion_clear Hn as [|? ? Hnin Hnd].
  destruct Hx as [->|Hx], Hy as [->|Hy]; try reflexivity.
  - exfalso. apply Hnin. rewrite E. now apply in_map.
  - exfalso. apply Hnin. rewrite <- E. now apply in_map.
  - now apply IH.
Qed.

Lemma isSelected_true t s :
  isSelected t s = true <->
  exists p, In p (activePredictions s) /\ type p = t.
Proof.
  unfold isSelected. rewrite existsb_exists.
  split; intros (p & Hin & Hp); exists p; split; try assumption.
  - now destruct (PredictionType_eqb_spec (type p) t).
  - now destruct (PredictionType_eqb_spec (type p) t).
Qed.

(** X14: in a reachable state at most one bet button per category is
    highlighted.  After a bet on [t] made while betting is open, the button
    of [t] is highlighted and the button of every other kind of the same
    category is not. *)
Theorem one_highlighted_button_per_category (s : GameState) :
  reachable s ->
  (forall t t', isSelected t s = true -> isSelected t' s = true ->
                categoryOf t = categoryOf t' -> t = t') /\
  (forall t, phase (currentRound s) = betting ->
     isSelected t (fst (addPrediction t s)) = true /\
     forall t', t' <> t -> categoryOf t' = categoryOf t ->
                isSelected t' (fst (addPrediction t s)) = false).
Proof.
  assert (U : forall s0, reachable s0 ->
                forall t t', isSelected t s0 = true -> isSelected t' s0 = true ->
                             categoryOf t = categoryOf t' -> t = t').
  { intros s0 Hr t t' Ht Ht' Hc.
    destruct (reachable_one_per_category s0 Hr) as [Hn _].
    destruct (reachable_well_formed s0 Hr) as [Hw _].
    apply isSelected_true in Ht as (p & Hp & <-).
    apply isSelected_true in Ht' as (p' & Hp' & <-).
    f_equal.
    apply (NoDup_map_injective category (activePredictions s0));
      try assumption.
    rewrite Forall_forall in Hw.
    rewrite (Hw p Hp), (Hw p' Hp'). simpl. exact Hc. }
  intros Hr. split; [now apply U|].
  intros t Hp.
  destruct (reachable_clock_in_bounds s Hr) as [_ Hbet].
  destruct (Hbet Hp) as [H1 _].
  assert (Hsel : isSelected t (fst (addPrediction t s)) = true).
  { apply isSelected_true. exists (mkPrediction t). split; [|reflexivity].
    rewrite addPrediction_accepted by (assumption || lia).
    apply in_or_app. right. now left. }
  split; [exact Hsel|].
  intros t' Hne Hc.
  destruct (isSelected t' (fst (addPrediction t s))) eqn:E; [|reflexivity].
  exfalso. apply Hne.
  apply (U (fst (addPrediction t s))); try assumption.
  apply reachable_step with s; [assumption|].
  now apply (step_event s (AddPrediction t)).
Qed.

Lemma one_highlighted_button_witness :
  isSelected T_small (fst (addPrediction T_small state_with_big)) = true /\
  isSelected T_big (fst (addPrediction T_small state_with_big)) = false.
Proof.
  destruct (proj2 (one_highlighted_button_per_category state_with_big
                     (reachable_run [AddPrediction T_big] _
                        reachable_init eq_refl))
              T_small eq_refl) as [H1 H2].
  split; [exact H1|].
  apply H2; [discriminate|reflexivity].
Defined.

(** ** Duration changes *)

(** X15: duration changes compose, the last one wins: changing to [d1] and
    then to [d2] leaves the state that changing to [d2] alone leaves.  In
    betting a change restarts the countdown at no less than 10 seconds, also
    when the duration chosen is the one already selected. *)
Theorem changeDuration_last_change_wins
  (d1 d2 : RoundDuration) (s : GameState) :
  fst (changeDuration d2 (fst (changeDuration d1 s)))
  = fst (changeDuration d2 s) /\
  (phase (currentRound s) = betting ->
   timeRemaining (currentRound (fst (changeDuration (selectedDuration s) s)))
   = seconds (selectedDuration s) /\
   10 <= timeRemaining (currentRound (fst (changeDuration d1 s)))).
Proof.
  split.
  - unfold changeDuration. cbn [fst].
    destruct (GamePhase_eqb (phase (currentRound s)) betting) eqn:E; simpl.
    + apply (reflect_iff _ _ (GamePhase_eqb_spec _ _)) in E.
      now rewrite E.
    + now rewrite E.
  - intros Hp. rewrite !changeDuration_currentRound, Hp. simpl.
    split; [reflexivity|]. destruct d1; simpl; lia.
Qed.

(** ** With the buttons' [disabled] attributes honoured *)




(** ** Results of the generator *)







(** ** What never changes *)

Lemma mode_apply_event e s : mode (apply_event e s) = mode s.
Proof.
  destruct e; try reflexivity; cbn [apply_event].
  - unfold tick. now destruct (_ <=? _).
  - unfold addPrediction. now destruct (_ || _).
  - unfold placePredictions. destruct (_ =? _)%nat; [reflexivity|].
    now destruct (_ =? _).
Qed.

Lemma settings_apply_event e s :
  settings (apply_event e s) =
    match e with
    | SetSound b =>
        {| soundEnabled := b;
           animationsEnabled := animationsEnabled (settings s) |}
    | SetAnimations b =>
        {| soundEnabled := soundEnabled (settings s);
           animationsEnabled := b |}
    | _ => settings s
    end.
Proof.
  destruct e; try reflexivity; cbn [apply_event].
  - unfold tick. now destruct (_ <=? _).
  - unfold addPrediction. now destruct (_ || _).
  - unfold placePredictions. destruct (_ =? _)%nat; [reflexivity|].
    now destruct (_ =? _).
Qed.

(** X18: no timer and no handler changes the mode: every reachable state is
    in demo mode.  The settings change only through the two switches: a run
    of events without a switch leaves them as they were. *)
Theorem mode_stays_demo_and_settings_follow_switches
  (s : GameState) (evs : list Event) :
  (reachable s -> mode s = demo) /\
  mode (run evs s) = mode s /\
  (Forall (fun e => match e with
                    | SetSound _ | SetAnimations _ => False
                    | _ => True
                    end) evs ->
   settings (run evs s) = settings s).
Proof.
  split; [|split].
  - induction 1 as [|s0 s' _ IH [e _]]; [reflexivity|].
    now rewrite mode_apply_event.
  - induction evs as [|e evs IH] using rev_ind; [reflexivity|].
    now rewrite run_snoc, mode_apply_event.
  - induction evs as [|e evs IH] using rev_ind; [reflexivity|].
    intros H. apply Forall_app in H as [H He].
    rewrite run_snoc, settings_apply_event.
    inversion_clear He as [|? ? He' _].
    destruct e; try contradiction; now apply IH.
Qed.

(** ** Placing predictions and the outcome *)

(** X19: placing the predictions does not change what the round evaluates.
    From a state in betting with [n >= 1] seconds left, the state after the
    [n] ticks is the same whether or not [placePredictions] ran first: the
    last tick locks the active predictions in both cases. *)
Theorem placePredictions_does_not_change_the_outcome
  (n : nat) (s : GameState) :
  phase (currentRound s) = betting ->
  timeRemaining (currentRound s) = Z.of_nat n ->
  (0 < n)%nat ->
  run (repeat Tick n) (fst (placePredictions s)) = run (repeat Tick n) s.
Proof.
  intros Hp Ht Hn.
  destruct (countdown_run_helper n s Hp Ht Hn) as [_ ->].
  assert (Hp' : phase (currentRound (fst (placePredictions s))) = betting)
    by now rewrite placePredictions_currentRound.
  assert (Ht' : timeRemaining (currentRound (fst (placePredictions s)))
                = Z.of_nat n)
    by now rewrite placePredictions_currentRound.
  destruct (countdown_run_helper n _ Hp' Ht' Hn) as [_ ->].
  rewrite placePredictions_currentRound, placePredictions_activePredictions.
  pose proof (history_apply_event PlacePredictions s) as Eh.
  pose proof (lastResult_apply_event PlacePredictions s) as El.
  pose proof (settings_apply_event PlacePredictions s) as Es.
  pose proof (mode_apply_event PlacePredictions s) as Em.
  pose proof (selectedDuration_apply_event PlacePredictions s) as Ed.
  pose proof (bettingActivity_apply_event PlacePredictions s) as Eb.
  cbn [apply_event] in *.
  now rewrite Eh, El, Es, Em, Ed, Eb.
Qed.

Lemma placePredictions_outcome_witness :
  run (repeat Tick 10) (fst (placePredictions state_with_big))
  = run (repeat Tick 10) state_with_big.
Proof.
  exact (placePredictions_does_not_change_the_outcome 10 state_with_big
           eq_refl eq_refl ltac:(repeat constructor)).
Defined.
